(** * source_layout: declaration-order linter

    A shallow embedding of [source_layout.py]: the declaration tree
    ([DeclType], [DeclNode], [Issue]), the order checker
    [DeclNode.check_order], and the tree builder of [Analyzer]
    ([_analyze_module], [_analyze_class], [_analyze_class_var],
    [_analyze_function], [_analyze_import], [_analyze_file]) over a model
    of the part of Python's [ast] the analyzer inspects. *)

From Stdlib Require Import ZArith List Bool Ascii String Lia.
Import ListNotations.

Set Warnings "-register-all".

Local Open Scope string_scope.
Local Open Scope list_scope.
Local Open Scope Z_scope.

(** ** Python string helpers *)

(** The double-quote character, code point 34. *)
Definition dquote : string := String (ascii_of_nat 34) EmptyString.

(** [s.startswith(p)]. *)
Definition startswith (s p : string) : bool := String.prefix p s.

(** [s.endswith(p)]: [s] is at least as long as [p] and its last
    [len(p)] characters are [p]. *)
Definition endswith (s p : string) : bool :=
  (String.length p <=? String.length s)%nat
  && String.eqb
       (substring (String.length s - String.length p) (String.length p) s) p.

(** [sep.join(names)]. *)
Definition join (sep : string) (names : list string) : string :=
  String.concat sep names.

(** ** Data model *)

(** [class Issue]: [line] and [msg]. *)
Record Issue : Type := mkIssue { issue_line : Z; issue_msg : string }.

(** [class DeclType(Enum)]. *)
Inductive DeclType : Type :=
| ROOT
| IMPORT
| CLASS_DECL
| CLASS_VAR
| MAGIC_METHOD
| STATIC_METHOD
| GETTER_SETTER
| PUBLIC_METHOD
| PRIVATE_METHOD.

(** [DeclType.value]. *)
Definition value (t : DeclType) : Z :=
  match t with
  | ROOT => 0
  | IMPORT => 1
  | CLASS_DECL => 2
  | CLASS_VAR => 3
  | MAGIC_METHOD => 4
  | STATIC_METHOD => 5
  | GETTER_SETTER => 6
  | PUBLIC_METHOD => 7
  | PRIVATE_METHOD => 8
  end.

Definition DeclType_eqb (a b : DeclType) : bool := value a =? value b.

(** [class DeclNode]: the constructor leaves [children] empty;
    [add_child] appends. *)
Inductive DeclNode : Type :=
  mkDeclNode {
      decl_type : DeclType;
      name : string;
      line : Z;
      children : list DeclNode
    }.

(** [DeclNode(decl_type, name, line)]. *)
Definition new_DeclNode (t : DeclType) (n : string) (l : Z) : DeclNode :=
  mkDeclNode t n l [].

(** [self.children.append(child)]. *)
Definition add_child (self child : DeclNode) : DeclNode :=
  mkDeclNode (decl_type self) (name self) (line self)
             (children self ++ [child]).

(** ** Order checker *)

(** The f-string of [check_order]. *)
Definition order_msg (child prev : DeclNode) : string :=
  (dquote ++ name child ++ dquote ++ " should not be after "
          ++ dquote ++ name prev ++ dquote)%string.

(** State of the first loop of [check_order]: the [prev] cursor and the
    issues appended so far. *)
Definition scan_state : Type := (option DeclNode * list Issue)%type.

(** One iteration of the first loop. *)
Definition scan_step (st : scan_state) (child : DeclNode) : scan_state :=
  let '(prev, issues) := st in
  match prev with
  | None => (Some child, issues)
  | Some p =>
      let issues' :=
        if value (decl_type child) <? value (decl_type p)
        then issues ++ [mkIssue (line child) (order_msg child p)]
        else issues in
      (Some child, issues')
  end.

(** The first loop, started with [prev = None] and [issues = []]. *)
Definition sibling_scan (cs : list DeclNode) : list Issue :=
  snd (fold_left scan_step cs (None, [])).

(** [DeclNode.check_order]: the sibling scan, then the second loop that
    extends [issues] with every child's own result. *)
Fixpoint check_order (self : DeclNode) : list Issue :=
  fold_left (fun issues child => issues ++ check_order child)
            (children self)
            (sibling_scan (children self)).

(** ** The part of Python's [ast] the analyzer inspects *)

(** Expressions: decorators and assignment targets.  The analyzer
    distinguishes [ast.Name] and [ast.Attribute]; every other expression
    class is told apart from those two only by failing both [isinstance]
    tests. *)
Inductive expr : Type :=
| Name (id : string)
| Attribute (val : expr) (attr : string)
| Call (func : expr) (args : list expr)
| Subscript (val : expr) (slice : expr)
| Tuple (elts : list expr)
| Starred (val : expr)
| Constant (repr : string).

(** [ast.alias]. *)
Record alias : Type := mkAlias { alias_name : string; asname : option string }.

(** Statements.  [ast.ImportFrom] and [ast.AsyncFunctionDef] are classes
    of their own, not subclasses of [ast.Import] and [ast.FunctionDef];
    [OtherStmt] stands for every remaining statement class. *)
Inductive stmt : Type :=
| ClassDef (cname : string) (cbody : list stmt)
           (cdecorator_list : list expr) (lineno : Z)
| FunctionDef (fname : string) (fbody : list stmt)
              (decorator_list : list expr) (lineno : Z)
| AsyncFunctionDef (fname : string) (fbody : list stmt)
                   (decorator_list : list expr) (lineno : Z)
| Import (names : list alias) (lineno : Z)
| ImportFrom (module : option string) (names : list alias)
             (level : Z) (lineno : Z)
| Assign (targets : list expr) (lineno : Z)
| AnnAssign (target : expr) (lineno : Z)
| OtherStmt (lineno : Z).

(** [ast.Module]. *)
Record Module : Type := mkModule { body : list stmt }.

(** ** Tree builder *)

(** Early return: a block of statements either returns a value or falls
    through to the statements after it. *)
Definition or_else {A : Type} (block : option A) (rest : A) : A :=
  match block with
  | Some a => a
  | None => rest
  end.

Notation "b 'orelse' r" := (or_else b r)
  (at level 60, right associativity).

(** Two blocks in sequence: the second runs when the first falls
    through. *)
Definition seq_block {A : Type} (b1 b2 : option A) : option A :=
  match b1 with
  | Some a => Some a
  | None => b2
  end.

(** [Analyzer._analyze_import]. *)
Definition _analyze_import (node_names : list alias) (node_lineno : Z)
  : DeclNode :=
  let names :=
    fold_left (fun names a => names ++ [alias_name a]) node_names [] in
  new_DeclNode IMPORT (join "," names) node_lineno.

(** The [if len(node.decorator_list) > 0:] block of [_analyze_function]:
    [Some] when one of its [return]s is taken. *)
Definition decorator_block (node_name : string) (decorator_list : list expr)
           (node_lineno : Z) : option DeclNode :=
  match decorator_list with
  | [] => None
  | d0 :: _ =>
      seq_block
      (match d0 with
       | Name id =>
           if String.eqb id "staticmethod"
           then Some (new_DeclNode STATIC_METHOD node_name node_lineno)
           else if String.eqb id "property"
                then Some (new_DeclNode GETTER_SETTER node_name node_lineno)
                else None
       | _ => None
       end)
      (match d0 with
       | Attribute _ a =>
           if String.eqb a "setter"
           then Some (new_DeclNode GETTER_SETTER node_name node_lineno)
           else None
       | _ => None
       end)
  end.

(** [Analyzer._analyze_function], on [node.name], [node.decorator_list]
    and [node.lineno]; [node.body] is never read. *)
Definition _analyze_function (node_name : string) (decorator_list : list expr)
           (node_lineno : Z) : DeclNode :=
  decorator_block node_name decorator_list node_lineno
  orelse
  (if startswith node_name "__" && endswith node_name "__"
   then Some (new_DeclNode MAGIC_METHOD node_name node_lineno)
   else None)
  orelse
  (if startswith node_name "_"
   then Some (new_DeclNode PRIVATE_METHOD node_name node_lineno)
   else None)
  orelse
  new_DeclNode PUBLIC_METHOD node_name node_lineno.

(** [Analyzer._analyze_class_var].  A node that is neither [ast.AnnAssign]
    nor [ast.Assign] falls off the end of the function, which is Python's
    [return None]. *)
Definition _analyze_class_var (node : stmt) : option DeclNode :=
  match node with
  | AnnAssign target node_lineno =>
      let name :=
        match target with
        | Name id => id
        | Attribute _ a => a
        | _ => "unknown"
        end in
      Some (new_DeclNode CLASS_VAR name node_lineno)
  | Assign targets node_lineno =>
      let name :=
        match targets with
        | [] => "unknown"
        | Name id :: _ => id
        | Attribute _ a :: _ => a
        | _ :: _ => "unknown"
        end in
      Some (new_DeclNode CLASS_VAR name node_lineno)
  | _ => None
  end.

(** [decl_tree.add_child(self._analyze_class_var(child))].  The [None]
    arm is never taken: the two call sites pass an [ast.Assign] or an
    [ast.AnnAssign]. *)
Definition add_class_var (decl_tree : DeclNode) (child : stmt) : DeclNode :=
  match _analyze_class_var child with
  | Some d => add_child decl_tree d
  | None => decl_tree
  end.

(** One iteration of the loop of [_analyze_class]. *)
Definition class_step (decl_tree : DeclNode) (child : stmt) : DeclNode :=
  match child with
  | Assign _ _ => add_class_var decl_tree child
  | FunctionDef n _ ds l => add_child decl_tree (_analyze_function n ds l)
  | AnnAssign _ _ => add_class_var decl_tree child
  | _ => decl_tree
  end.

(** [Analyzer._analyze_class], on [node.name], [node.body] and
    [node.lineno]. *)
Definition _analyze_class (node_name : string) (node_body : list stmt)
           (node_lineno : Z) : DeclNode :=
  fold_left class_step node_body
            (new_DeclNode CLASS_DECL node_name node_lineno).

(** One iteration of the loop of [_analyze_module]. *)
Definition module_step (decl_tree : DeclNode) (node : stmt) : DeclNode :=
  match node with
  | ClassDef n b _ l => add_child decl_tree (_analyze_class n b l)
  | FunctionDef n _ ds l => add_child decl_tree (_analyze_function n ds l)
  | Import ns l => add_child decl_tree (_analyze_import ns l)
  | _ => decl_tree
  end.

(** [Analyzer._analyze_module]. *)
Definition _analyze_module (module : Module) : DeclNode :=
  fold_left module_step (body module) (new_DeclNode ROOT "root" 0).

(** ** File analysis *)

(** Outcome of a call that may raise. *)
Inductive outcome (A : Type) : Type :=
| Returned (a : A)
| Raised (ex : string).

Arguments Returned {A} a.
Arguments Raised {A} ex.

Section AnalyzeFile.

(** [open(path).read()]: the text of the file, or the exception raised
    by opening or decoding it. *)
Variable read_text : string -> outcome string.

(** [ast.parse]: the module, or the exception it raises. *)
Variable ast_parse : string -> outcome Module.

(** [Analyzer._analyze_file].  A failure to read the file is outside the
    [try] and propagates; an exception of [ast.parse] is caught.  The
    calls to [logging] do not affect the returned value and are left
    out. *)
Definition _analyze_file (path : string) : outcome (list Issue) :=
  match read_text path with
  | Raised ex => Raised ex
  | Returned text =>
      match ast_parse text with
      | Raised _ => Returned []
      | Returned module =>
          let decl_tree := _analyze_module module in
          Returned (check_order decl_tree)
      end
  end.

(** [Analyzer.process]. *)
Definition process (path : string) : outcome (list Issue) :=
  _analyze_file path.

End AnalyzeFile.

(** ** Specification-level notions *)

(** Adjacent pairs [(prev, c)] of a sequence, left to right. *)
Fixpoint adjacent_pairs {A : Type} (l : list A) : list (A * A) :=
  match l with
  | [] => []
  | a :: t =>
      match t with
      | [] => []
      | b :: _ => (a, b) :: adjacent_pairs t
      end
  end.

(** What one adjacent pair contributes: an issue on the later sibling
    exactly when its rank is below its predecessor's. *)
Definition pair_issue (pc : DeclNode * DeclNode) : list Issue :=
  let '(prev, c) := pc in
  if value (decl_type c) <? value (decl_type prev)
  then [mkIssue (line c) (order_msg c prev)]
  else [].

(** ** Loop lemmas *)

Lemma fold_left_extend {A B : Type} (f : B -> list A) (l : list B)
      (init : list A) :
  fold_left (fun acc b => acc ++ f b) l init = init ++ flat_map f l.
Proof.
  revert init.
  induction l as [|b l IH]; intros init; simpl.
  - now rewrite app_nil_r.
  - rewrite IH. now rewrite <- app_assoc.
Qed.

Lemma scan_step_from (p c : DeclNode) (acc : list Issue) :
  scan_step (Some p, acc) c = (Some c, acc ++ pair_issue (p, c)).
Proof.
  unfold scan_step, pair_issue.
  destruct (value (decl_type c) <? value (decl_type p)).
  - reflexivity.
  - now rewrite app_nil_r.
Qed.

Lemma scan_fold_from (cs : list DeclNode) (p : DeclNode) (acc : list Issue) :
  snd (fold_left scan_step cs (Some p, acc))
  = acc ++ flat_map pair_issue (adjacent_pairs (p :: cs)).
Proof.
  revert p acc.
  induction cs as [|c cs IH]; intros p acc.
  - simpl. now rewrite app_nil_r.
  - cbn [fold_left]. rewrite scan_step_from, IH.
    cbn [adjacent_pairs flat_map].
    now rewrite <- app_assoc.
Qed.


(** ** Classification, as the specification words it *)

(** The decorator is the bare identifier [id]. *)
Definition is_bare (id : string) (d : expr) : bool :=
  match d with
  | Name i => String.eqb i id
  | _ => false
  end.

(** The decorator is an attribute access whose attribute name is [a]. *)
Definition is_attr (a : string) (d : expr) : bool :=
  match d with
  | Attribute _ x => String.eqb x a
  | _ => false
  end.

(** Classification by name alone. *)
Definition classify_by_name (n : string) : DeclType :=
  if startswith n "__" && endswith n "__" then MAGIC_METHOD
  else if startswith n "_" then PRIVATE_METHOD
  else PUBLIC_METHOD.

(** Classification of a function from its first decorator, if any, and
    its name. *)
Definition classify_function_spec (first : option expr) (n : string)
  : DeclType :=
  match first with
  | Some d =>
      if is_bare "staticmethod" d then STATIC_METHOD
      else if is_bare "property" d || is_attr "setter" d then GETTER_SETTER
      else classify_by_name n
  | None => classify_by_name n
  end.

(** Display name of a class variable from the target the classifier looks
    at, if any. *)
Definition target_name_spec (target : option expr) : string :=
  match target with
  | Some (Name id) => id
  | Some (Attribute _ a) => a
  | _ => "unknown"
  end.

(** The five categories a function definition can fall in. *)
Definition is_method_type (t : DeclType) : bool :=
  match t with
  | MAGIC_METHOD | STATIC_METHOD | GETTER_SETTER
  | PUBLIC_METHOD | PRIVATE_METHOD => true
  | _ => false
  end.

(** Method, field and import categories. *)
Definition is_member_type (t : DeclType) : bool :=
  match t with
  | ROOT | CLASS_DECL => false
  | _ => true
  end.

(** The elements of [l] on which [f] is defined, in order. *)
Definition collect {A B : Type} (f : A -> option B) (l : list A) : list B :=
  flat_map (fun a => match f a with Some b => [b] | None => [] end) l.

(** The node, if any, a statement of a class body contributes. *)
Definition class_member (s : stmt) : option DeclNode :=
  match s with
  | Assign targets l =>
      Some (new_DeclNode CLASS_VAR (target_name_spec (hd_error targets)) l)
  | AnnAssign target l =>
      Some (new_DeclNode CLASS_VAR (target_name_spec (Some target)) l)
  | FunctionDef n _ ds l =>
      Some (new_DeclNode (classify_function_spec (hd_error ds) n) n l)
  | _ => None
  end.

(** The node, if any, a top-level statement contributes. *)
Definition module_member (s : stmt) : option DeclNode :=
  match s with
  | ClassDef n b _ l =>
      Some (mkDeclNode CLASS_DECL n l (collect class_member b))
  | FunctionDef n _ ds l =>
      Some (new_DeclNode (classify_function_spec (hd_error ds) n) n l)
  | Import ns l =>
      Some (new_DeclNode IMPORT (String.concat "," (map alias_name ns)) l)
  | _ => None
  end.

(** Every node of a tree, the root first. *)
Fixpoint all_nodes (t : DeclNode) : list DeclNode :=
  t :: flat_map all_nodes (children t).

(** Number of edges on the longest path from the root to a leaf. *)
Fixpoint height (t : DeclNode) : nat :=
  fold_right (fun c h => Nat.max (S (height c)) h) 0%nat (children t).

Definition is_IMPORT (d : DeclNode) : bool :=
  DeclType_eqb (decl_type d) IMPORT.

Definition is_Import_stmt (s : stmt) : bool :=
  match s with
  | Import _ _ => true
  | _ => false
  end.

(** ** String lemmas *)

Lemma startswith_spec (s p : string) :
  startswith s p = true <-> exists t, s = (p ++ t)%string.
Proof.
  unfold startswith. revert s.
  induction p as [|a p IH]; intros s.
  - split; [intros _; now exists s|intros _; now destruct s].
  - destruct s as [|b s]; cbn [String.prefix append].
    + split; [discriminate|intros [t Ht]; discriminate].
    + destruct (ascii_dec a b) as [->|Hab].
      * rewrite IH. split; intros [t Ht]; exists t; congruence.
      * split; [discriminate|intros [t Ht]; congruence].
Qed.

Lemma substring_full (p : string) : substring 0 (String.length p) p = p.
Proof. induction p as [|a p IH]; cbn; congruence. Qed.

Lemma substring_append (t p : string) :
  substring (String.length t) (String.length p) (t ++ p) = p.
Proof.
  induction t as [|a t IH]; cbn [String.length append substring].
  - apply substring_full.
  - exact IH.
Qed.

Lemma length_append (t p : string) :
  String.length (t ++ p) = (String.length t + String.length p)%nat.
Proof. induction t as [|a t IH]; cbn; congruence. Qed.

Lemma substring_split (s : string) (n : nat) :
  (n <= String.length s)%nat ->
  s = (substring 0 n s ++ substring n (String.length s - n) s)%string.
Proof.
  revert n. induction s as [|c s IH]; intros n Hn.
  - destruct n; [reflexivity|cbn in Hn; lia].
  - destruct n as [|n].
    + cbn [substring append String.length Nat.sub].
      now rewrite substring_full.
    + cbn [substring append String.length Nat.sub]. f_equal.
      apply IH. cbn in Hn. lia.
Qed.

Lemma endswith_spec (s p : string) :
  endswith s p = true <-> exists t, s = (t ++ p)%string.
Proof.
  unfold endswith. rewrite andb_true_iff, Nat.leb_le, String.eqb_eq.
  split.
  - intros [Hle Hsub].
    exists (substring 0 (String.length s - String.length p) s).
    pose proof (substring_split s (String.length s - String.length p)) as H.
    replace (String.length s - (String.length s - String.length p))%nat
      with (String.length p) in H by lia.
    rewrite Hsub in H. apply H. lia.
  - intros [t ->]. rewrite length_append. split; [lia|].
    replace (String.length t + String.length p - String.length p)%nat
      with (String.length t) by lia.
    apply substring_append.
Qed.

(** ** Builder lemmas *)

Lemma analyze_function_eq (n : string) (ds : list expr) (l : Z) :
  _analyze_function n ds l
  = new_DeclNode (classify_function_spec (hd_error ds) n) n l.
Proof.
  unfold _analyze_function, classify_function_spec, classify_by_name.
  destruct ds as [|d rest]; cbn [decorator_block hd_error or_else].
  - destruct (startswith n "__" && endswith n "__"); [reflexivity|].
    now destruct (startswith n "_").
  - destruct d; cbn [is_bare is_attr seq_block orb or_else];
      try (destruct (startswith n "__" && endswith n "__"); [reflexivity|];
           now destruct (startswith n "_")).
    + destruct (String.eqb id "staticmethod"); [reflexivity|].
      destruct (String.eqb id "property"); [reflexivity|].
      cbn [seq_block or_else].
      destruct (startswith n "__" && endswith n "__"); [reflexivity|].
      now destruct (startswith n "_").
    + destruct (String.eqb attr "setter"); [reflexivity|].
      cbn [or_else].
      destruct (startswith n "__" && endswith n "__"); [reflexivity|].
      now destruct (startswith n "_").
Qed.

Lemma classify_by_name_method (n : string) :
  is_method_type (classify_by_name n) = true.
Proof.
  unfold classify_by_name.
  destruct (startswith n "__" && endswith n "__"); [reflexivity|].
  now destruct (startswith n "_").
Qed.

Lemma classify_function_spec_method (first : option expr) (n : string) :
  is_method_type (classify_function_spec first n) = true.
Proof.
  destruct first as [d|]; cbn [classify_function_spec];
    [|apply classify_by_name_method].
  destruct (is_bare "staticmethod" d); [reflexivity|].
  destruct (is_bare "property" d || is_attr "setter" d); [reflexivity|].
  apply classify_by_name_method.
Qed.

Lemma analyze_class_var_assign (targets : list expr) (l : Z) :
  _analyze_class_var (Assign targets l)
  = Some (new_DeclNode CLASS_VAR (target_name_spec (hd_error targets)) l).
Proof.
  cbn [_analyze_class_var]. destruct targets as [|t ts]; [reflexivity|].
  now destruct t.
Qed.

Lemma analyze_class_var_annassign (target : expr) (l : Z) :
  _analyze_class_var (AnnAssign target l)
  = Some (new_DeclNode CLASS_VAR (target_name_spec (Some target)) l).
Proof.
  cbn [_analyze_class_var]. now destruct target.
Qed.

Lemma import_names_loop (ns : list alias) (acc : list string) :
  fold_left (fun names a => names ++ [alias_name a]) ns acc
  = acc ++ map alias_name ns.
Proof.
  revert acc. induction ns as [|a ns IH]; intros acc; simpl.
  - now rewrite app_nil_r.
  - rewrite IH. now rewrite <- app_assoc.
Qed.

Lemma analyze_import_eq (ns : list alias) (l : Z) :
  _analyze_import ns l
  = new_DeclNode IMPORT (String.concat "," (map alias_name ns)) l.
Proof.
  unfold _analyze_import, join. now rewrite import_names_loop.
Qed.

(** A loop whose every iteration appends at most one child. *)
Lemma fold_left_add_children {A : Type} (f : A -> option DeclNode)
      (step : DeclNode -> A -> DeclNode)
      (Hstep : forall t a,
          step t a = match f a with
                     | Some d => add_child t d
                     | None => t
                     end)
      (l : list A) (t : DeclNode) :
  fold_left step l t
  = mkDeclNode (decl_type t) (name t) (line t) (children t ++ collect f l).
Proof.
  revert t. induction l as [|a l IH]; intros t; cbn [fold_left collect flat_map].
  - rewrite app_nil_r. now destruct t.
  - rewrite IH, Hstep. fold (collect f l).
    destruct (f a) as [d|]; cbn [add_child decl_type name line children].
    + now rewrite <- app_assoc.
    + reflexivity.
Qed.

Lemma class_step_member (t : DeclNode) (s : stmt) :
  class_step t s = match class_member s with
                   | Some d => add_child t d
                   | None => t
                   end.
Proof.
  destruct s; cbn [class_step class_member]; try reflexivity.
  - now rewrite analyze_function_eq.
  - unfold add_class_var. now rewrite analyze_class_var_assign.
Qed.

Lemma analyze_class_eq (n : string) (b : list stmt) (l : Z) :
  _analyze_class n b l = mkDeclNode CLASS_DECL n l (collect class_member b).
Proof.
  unfold _analyze_class.
  now rewrite (fold_left_add_children class_member class_step class_step_member).
Qed.

Lemma module_step_member (t : DeclNode) (s : stmt) :
  module_step t s = match module_member s with
                    | Some d => add_child t d
                    | None => t
                    end.
Proof.
  destruct s; cbn [module_step module_member]; try reflexivity.
  - now rewrite analyze_class_eq.
  - now rewrite analyze_function_eq.
  - now rewrite analyze_import_eq.
Qed.

Lemma analyze_module_eq (m : Module) :
  _analyze_module m = mkDeclNode ROOT "root" 0 (collect module_member (body m)).
Proof.
  unfold _analyze_module.
  now rewrite (fold_left_add_children module_member module_step
                                      module_step_member).
Qed.

Lemma collect_app {A B : Type} (f : A -> option B) (l1 l2 : list A) :
  collect f (l1 ++ l2) = collect f l1 ++ collect f l2.
Proof. unfold collect. apply flat_map_app. Qed.

Lemma startswith_dunder_under (n : string) :
  startswith n "__" = true -> startswith n "_" = true.
Proof.
  unfold startswith.
  destruct n as [|a n]; cbn [String.prefix]; [discriminate|].
  destruct (ascii_dec "_" a); [|discriminate].
  intros _. now destruct n.
Qed.

(** A string in double quotes, as the f-string of [check_order] writes a
    name. *)
Definition quoted (s : string) : string := (dquote ++ s ++ dquote)%string.

(** ** The order checker *)

(** C1. The sibling scan of [check_order] over a node's children emits,
    for the adjacent pairs [(prev, c)] taken left to right, an issue with
    line [c.line] and message ["c.name" should not be after "prev.name"]
    exactly for the pairs with [rank c < rank prev], and nothing for equal
    or increasing rank.  Every adjacent pair is compared, so the baseline
    is always the immediately preceding sibling. *)
Theorem sibling_scan_adjacent_pairs (self : DeclNode) :
  sibling_scan (children self)
  = flat_map
      (fun '(prev, c) =>
         if value (decl_type c) <? value (decl_type prev)
         then [mkIssue (line c)
                       (dquote ++ name c ++ dquote ++ " should not be after "
                               ++ dquote ++ name prev ++ dquote)%string]
         else [])
      (adjacent_pairs (children self)).
Proof.
  change (sibling_scan (children self)
          = flat_map pair_issue (adjacent_pairs (children self))).
  unfold sibling_scan.
  destruct (children self) as [|c cs].
  - reflexivity.
  - cbn [fold_left scan_step]. now rewrite scan_fold_from.
Qed.

(** Three siblings of strictly descending rank: the third is flagged
    against the second, its immediate predecessor, not against the first. *)
Example consecutive_descending_siblings :
  sibling_scan [new_DeclNode PRIVATE_METHOD "_c" 1;
                new_DeclNode PUBLIC_METHOD "b" 2;
                new_DeclNode MAGIC_METHOD "__a__" 3]
  = [mkIssue 2 (quoted "b" ++ " should not be after " ++ quoted "_c")%string;
     mkIssue 3 (quoted "__a__" ++ " should not be after " ++ quoted "b")%string].
Proof. reflexivity. Qed.

(** C2. The issues [check_order] returns for a node are the node's own
    sibling-scan issues followed by the issue blocks of its children's
    subtrees, one block per child in sibling order. *)
Theorem check_order_own_then_descendants (self : DeclNode) :
  check_order self
  = sibling_scan (children self) ++ flat_map check_order (children self).
Proof.
  destruct self as [t n l cs]. cbn [check_order children].
  apply fold_left_extend.
Qed.

(** A local violation on line 9 precedes a descendant violation on
    line 3. *)
Example own_before_smaller_line :
  check_order
    (mkDeclNode ROOT "root" 0
       [mkDeclNode CLASS_DECL "A" 1
          [new_DeclNode PUBLIC_METHOD "f" 2; new_DeclNode CLASS_VAR "x" 3];
        new_DeclNode IMPORT "os" 9])
  = [mkIssue 9 (quoted "os" ++ " should not be after " ++ quoted "A")%string;
     mkIssue 3 (quoted "x" ++ " should not be after " ++ quoted "f")%string].
Proof. reflexivity. Qed.

(** C3. A module whose only top-level statement is a class with the
    members static method [from_dict], field [name], [__init__], [bark],
    [__repr__], field [age], in this order, yields exactly three issues:
    [name] against [from_dict], [__repr__] against [bark], [age] against
    [__repr__]; whatever the lines, the class name and the bodies. *)
Theorem dog_class_three_issues
        (cname : string) (cds ds : list expr) (b1 b3 b4 b5 : list stmt)
        (l0 l1 l2 l3 l4 l5 l6 : Z) :
  check_order
    (_analyze_module
       (mkModule
          [ClassDef cname
             [FunctionDef "from_dict" b1 (Name "staticmethod" :: ds) l1;
              AnnAssign (Name "name") l2;
              FunctionDef "__init__" b3 [] l3;
              FunctionDef "bark" b4 [] l4;
              FunctionDef "__repr__" b5 [] l5;
              AnnAssign (Name "age") l6]
             cds l0]))
  = [mkIssue l2
       (quoted "name" ++ " should not be after " ++ quoted "from_dict")%string;
     mkIssue l5
       (quoted "__repr__" ++ " should not be after " ++ quoted "bark")%string;
     mkIssue l6
       (quoted "age" ++ " should not be after " ++ quoted "__repr__")%string].
Proof. reflexivity. Qed.

(** ** The classifier *)

(** C4. A function definition is classified from its first decorator
    alone: bare [staticmethod] gives STATIC_METHOD; bare [property], or an
    attribute access named [setter], gives GETTER_SETTER; otherwise the
    name decides: MAGIC_METHOD when it starts and ends with [__], else
    PRIVATE_METHOD when it starts with [_], else PUBLIC_METHOD.  The node
    keeps the function's name and line and has no children. *)
Theorem analyze_function_classification
        (n : string) (ds : list expr) (l : Z) :
  _analyze_function n ds l
  = mkDeclNode
      (match hd_error ds with
       | Some d =>
           if is_bare "staticmethod" d then STATIC_METHOD
           else if is_bare "property" d || is_attr "setter" d
                then GETTER_SETTER
                else classify_by_name n
       | None => classify_by_name n
       end)
      n l [].
Proof. exact (analyze_function_eq n ds l). Qed.

(** C10. An undecorated function whose name starts with two underscores
    and does not end with two underscores is a PRIVATE_METHOD. *)
Theorem mangled_name_is_private (n : string) (l : Z) :
  startswith n "__" = true ->
  endswith n "__" = false ->
  _analyze_function n [] l = new_DeclNode PRIVATE_METHOD n l.
Proof.
  intros Hs He.
  rewrite analyze_function_eq.
  cbn [hd_error classify_function_spec]. unfold classify_by_name.
  rewrite Hs, He, (startswith_dunder_under n Hs). reflexivity.
Qed.

Lemma mangled_name_is_private_witness :
  startswith "__mangled" "__" = true
  /\ endswith "__mangled" "__" = false
  /\ _analyze_function "__mangled" [] 7
     = new_DeclNode PRIVATE_METHOD "__mangled" 7.
Proof.
  split; [reflexivity|]. split; [reflexivity|].
  apply (mangled_name_is_private "__mangled" 7); reflexivity.
Defined.

(** C6. In a class body, an assignment or annotated assignment becomes a
    childless CLASS_VAR node on the statement's line, named by the target
    the classifier looks at (the only target of an annotated assignment,
    the first target of a plain one): the identifier of a simple name, the
    trailing attribute of an attribute access, and ["unknown"] when there
    is no target or the target has another shape. *)
Theorem analyze_class_var_names :
  (forall (target : expr) (l : Z),
      _analyze_class_var (AnnAssign target l)
      = Some (mkDeclNode CLASS_VAR
                (match target with
                 | Name id => id
                 | Attribute _ a => a
                 | _ => "unknown"
                 end) l []))
  /\ (forall (targets : list expr) (l : Z),
         _analyze_class_var (Assign targets l)
         = Some (mkDeclNode CLASS_VAR
                   (match hd_error targets with
                    | Some (Name id) => id
                    | Some (Attribute _ a) => a
                    | _ => "unknown"
                    end) l []))
  /\ (forall (cn : string) (cl : Z) (target : expr) (l : Z),
         Some (children (_analyze_class cn [AnnAssign target l] cl))
         = option_map (fun d => [d]) (_analyze_class_var (AnnAssign target l)))
  /\ (forall (cn : string) (cl : Z) (targets : list expr) (l : Z),
         Some (children (_analyze_class cn [Assign targets l] cl))
         = option_map (fun d => [d]) (_analyze_class_var (Assign targets l))).
Proof.
  split; [|split; [|split]]; intros.
  - apply analyze_class_var_annassign.
  - apply analyze_class_var_assign.
  - rewrite analyze_class_eq, analyze_class_var_annassign. reflexivity.
  - rewrite analyze_class_eq, analyze_class_var_assign. reflexivity.
Qed.

(** ** File analysis *)

(** C7. When the text of a file is read and the parser raises on it,
    [_analyze_file] returns the empty issue list instead of raising; a
    file that parses to a module without statements gives the same
    result. *)
Theorem analyze_file_unparsable
        (read_text : string -> outcome string)
        (ast_parse : string -> outcome Module)
        (path text ex : string) :
  read_text path = Returned text ->
  ast_parse text = Raised ex ->
  _analyze_file read_text ast_parse path = Returned []
  /\ _analyze_file read_text (fun _ => Returned (mkModule [])) path
     = _analyze_file read_text ast_parse path.
Proof.
  intros Hr Hp. unfold _analyze_file. rewrite Hr, Hp. split; reflexivity.
Qed.

(** A file system holding one file, and a parser that rejects its text. *)
Definition one_bad_file (path : string) : outcome string :=
  if String.eqb path "bad.py" then Returned "class Dog(:"
  else Raised "FileNotFoundError".

Definition rejecting_parser (text : string) : outcome Module :=
  if String.eqb text "class Dog(:" then Raised "SyntaxError: invalid syntax"
  else Returned (mkModule []).

Lemma analyze_file_unparsable_witness :
  one_bad_file "bad.py" = Returned "class Dog(:"
  /\ rejecting_parser "class Dog(:" = Raised "SyntaxError: invalid syntax"
  /\ _analyze_file one_bad_file rejecting_parser "bad.py" = Returned []
  /\ _analyze_file one_bad_file (fun _ => Returned (mkModule [])) "bad.py"
     = _analyze_file one_bad_file rejecting_parser "bad.py".
Proof.
  split; [reflexivity|]. split; [reflexivity|].
  apply (analyze_file_unparsable one_bad_file rejecting_parser "bad.py"
           "class Dog(:" "SyntaxError: invalid syntax"); reflexivity.
Defined.

(** ** Shape of the built tree *)

Lemma Forall_collect {A B : Type} (P : B -> Prop) (f : A -> option B)
      (l : list A) :
  (forall a b, f a = Some b -> P b) -> Forall P (collect f l).
Proof.
  intros H. unfold collect. apply Forall_flat_map, Forall_forall.
  intros a _. destruct (f a) as [b|] eqn:E; [|constructor].
  constructor; [now apply (H a)|constructor].
Qed.

Lemma class_member_leaf (s : stmt) (d : DeclNode) :
  class_member s = Some d ->
  children d = []
  /\ (decl_type d = CLASS_VAR \/ is_method_type (decl_type d) = true).
Proof.
  destruct s; cbn [class_member]; try discriminate;
    intros [= <-]; cbn [new_DeclNode children decl_type]; split; auto.
  right. apply classify_function_spec_method.
Qed.

Lemma method_type_not_IMPORT (t : DeclType) :
  is_method_type t = true -> DeclType_eqb t IMPORT = false.
Proof. now destruct t. Qed.

Lemma height_leaf (d : DeclNode) : children d = [] -> height d = 0%nat.
Proof. destruct d as [t n l cs]. cbn [children]. now intros ->. Qed.

Lemma height_step (d : DeclNode) (k : nat) :
  Forall (fun c => (height c <= k)%nat) (children d) ->
  (height d <= S k)%nat.
Proof.
  destruct d as [t n l cs]. cbn [children height].
  induction 1 as [|c cs Hc _ IH]; cbn [fold_right]; lia.
Qed.

Lemma class_members_leaves (b : list stmt) :
  Forall (fun g => children g = []
                   /\ (decl_type g = CLASS_VAR
                       \/ is_method_type (decl_type g) = true))
         (collect class_member b).
Proof. apply Forall_collect, class_member_leaf. Qed.

Lemma module_member_shape (s : stmt) (d : DeclNode) :
  module_member s = Some d ->
  (children d = [] \/ decl_type d = CLASS_DECL)
  /\ (decl_type d = IMPORT \/ decl_type d = CLASS_DECL
      \/ is_method_type (decl_type d) = true)
  /\ Forall (fun g => children g = []
                      /\ (decl_type g = CLASS_VAR
                          \/ is_method_type (decl_type g) = true))
            (children d).
Proof.
  destruct s; cbn [module_member]; try discriminate;
    intros [= <-]; cbn [new_DeclNode children decl_type].
  - repeat split; auto. apply class_members_leaves.
  - repeat split; auto. right; right. apply classify_function_spec_method.
  - repeat split; auto.
Qed.

Lemma leaf_all_nodes (d : DeclNode) : children d = [] -> all_nodes d = [d].
Proof. destruct d as [t n l cs]. cbn [children all_nodes]. now intros ->. Qed.

Lemma class_members_no_IMPORT (b : list stmt) :
  filter is_IMPORT (flat_map all_nodes (collect class_member b)) = [].
Proof.
  induction b as [|s b IH]; [reflexivity|].
  change (collect class_member (s :: b))
    with ((match class_member s with Some d => [d] | None => [] end)
            ++ collect class_member b).
  rewrite flat_map_app, filter_app, IH, app_nil_r.
  destruct (class_member s) as [d|] eqn:E; [|reflexivity].
  destruct (class_member_leaf s d E) as [Hl Ht].
  cbn [flat_map]. rewrite app_nil_r, (leaf_all_nodes d Hl).
  cbn [filter]. unfold is_IMPORT.
  destruct Ht as [-> | Ht]; [reflexivity|].
  now rewrite (method_type_not_IMPORT _ Ht).
Qed.

Lemma module_member_IMPORT_count (s : stmt) :
  List.length (filter is_IMPORT
            (flat_map all_nodes
               (match module_member s with Some d => [d] | None => [] end)))
  = List.length (filter is_Import_stmt [s]).
Proof.
  destruct s; cbn [module_member is_Import_stmt filter flat_map];
    try reflexivity.
  - cbn [all_nodes children app filter is_IMPORT decl_type].
    rewrite app_nil_r.
    change (DeclType_eqb CLASS_DECL IMPORT) with false.
    now rewrite class_members_no_IMPORT.
  - cbn [new_DeclNode all_nodes children flat_map app filter].
    unfold is_IMPORT. cbn [decl_type].
    now rewrite (method_type_not_IMPORT _ (classify_function_spec_method _ _)).
Qed.

Lemma module_members_IMPORT_count (b : list stmt) :
  List.length (filter is_IMPORT (flat_map all_nodes (collect module_member b)))
  = List.length (filter is_Import_stmt b).
Proof.
  induction b as [|s b IH]; [reflexivity|].
  change (collect module_member (s :: b))
    with ((match module_member s with Some d => [d] | None => [] end)
            ++ collect module_member b).
  change (filter is_Import_stmt (s :: b))
    with (filter is_Import_stmt ([s] ++ b)).
  rewrite flat_map_app, !filter_app, !length_app, IH.
  now rewrite module_member_IMPORT_count.
Qed.

Lemma analyze_module_children_app (pre post : list stmt) :
  children (_analyze_module (mkModule (pre ++ post)))
  = children (_analyze_module (mkModule pre))
    ++ children (_analyze_module (mkModule post)).
Proof.
  rewrite !analyze_module_eq. cbn [children body]. apply collect_app.
Qed.

Lemma analyze_module_children_cons (s : stmt) (post : list stmt) :
  children (_analyze_module (mkModule (s :: post)))
  = match module_member s with Some d => [d] | None => [] end
    ++ children (_analyze_module (mkModule post)).
Proof. rewrite !analyze_module_eq. reflexivity. Qed.

(** ** The tree builder *)

(** A class definition inside a class body contributes no child: the
    enclosing class's node has no CLASS_DECL child for it. *)
Lemma nested_class_is_dropped :
  children
    (_analyze_class "Outer" [ClassDef "Inner" [AnnAssign (Name "x") 3] [] 2] 1)
  = []
  /\ ~ In (_analyze_class "Inner" [AnnAssign (Name "x") 3] 2)
          (children
             (_analyze_class "Outer"
                [ClassDef "Inner" [AnnAssign (Name "x") 3] [] 2] 1)).
Proof. split; [reflexivity|]. intros []. Qed.

(** C5, amended. A class definition at module level becomes a CLASS_DECL
    child of ROOT carrying the class's name and line.  Its children are
    the nodes of the assignments, annotated assignments and function
    definitions of the class body, in order, each classified once and
    without recursion; every other statement of the body, a nested class
    definition included, contributes nothing, and every child is a leaf
    that is not a CLASS_DECL. *)
Theorem analyze_class_members (n : string) (b : list stmt) (l : Z) :
  _analyze_class n b l
  = mkDeclNode CLASS_DECL n l
      (flat_map
         (fun s =>
            match s with
            | Assign _ _ | AnnAssign _ _ =>
                match _analyze_class_var s with
                | Some d => [d]
                | None => []
                end
            | FunctionDef fn _ ds fl => [_analyze_function fn ds fl]
            | _ => []
            end) b)
  /\ Forall (fun c => children c = [] /\ decl_type c <> CLASS_DECL)
            (children (_analyze_class n b l))
  /\ (forall (pre post : list stmt) (cn : string) (cb : list stmt)
             (cds : list expr) (cl : Z),
         _analyze_class n (pre ++ ClassDef cn cb cds cl :: post) l
         = _analyze_class n (pre ++ post) l)
  /\ (forall (pre post : list stmt) (cds : list expr),
         children (_analyze_module (mkModule (pre ++ ClassDef n b cds l :: post)))
         = children (_analyze_module (mkModule pre))
           ++ _analyze_class n b l
           :: children (_analyze_module (mkModule post))).
Proof.
  split; [|split; [|split]].
  - rewrite analyze_class_eq. f_equal. unfold collect.
    apply flat_map_ext. intros s.
    destruct s; cbn [class_member]; try reflexivity.
    + now rewrite analyze_function_eq.
    + now rewrite analyze_class_var_assign.
  - rewrite analyze_class_eq. cbn [children].
    eapply Forall_impl; [|apply class_members_leaves].
    intros g [Hl Ht]. split; [exact Hl|].
    intros E. rewrite E in Ht. destruct Ht; discriminate.
  - intros. rewrite !analyze_class_eq. f_equal.
    rewrite !collect_app. reflexivity.
  - intros. rewrite analyze_module_children_app, analyze_module_children_cons.
    cbn [module_member]. now rewrite analyze_class_eq.
Qed.

(** Upper bounds on the shape of a built tree. *)
Lemma analyze_module_shape (m : Module) :
  decl_type (_analyze_module m) = ROOT
  /\ value (decl_type (_analyze_module m)) = 0
  /\ line (_analyze_module m) = 0
  /\ Forall (fun c =>
               (children c = [] \/ decl_type c = CLASS_DECL)
               /\ (decl_type c = IMPORT \/ decl_type c = CLASS_DECL
                   \/ is_method_type (decl_type c) = true)
               /\ Forall (fun g =>
                            children g = []
                            /\ (decl_type g = CLASS_VAR
                                \/ is_method_type (decl_type g) = true))
                         (children c))
            (children (_analyze_module m))
  /\ Forall (fun d => is_member_type (decl_type d) = true -> children d = [])
            (all_nodes (_analyze_module m))
  /\ (height (_analyze_module m) <= 2)%nat.
Proof.
  assert (Hc : Forall (fun c =>
               (children c = [] \/ decl_type c = CLASS_DECL)
               /\ (decl_type c = IMPORT \/ decl_type c = CLASS_DECL
                   \/ is_method_type (decl_type c) = true)
               /\ Forall (fun g =>
                            children g = []
                            /\ (decl_type g = CLASS_VAR
                                \/ is_method_type (decl_type g) = true))
                         (children c))
            (children (_analyze_module m))).
  { rewrite analyze_module_eq. cbn [children].
    apply Forall_collect, module_member_shape. }
  split; [now rewrite analyze_module_eq|].
  split; [now rewrite analyze_module_eq|].
  split; [now rewrite analyze_module_eq|].
  split; [exact Hc|]. split.
  - destruct (_analyze_module m) as [t n l cs] eqn:E.
    assert (Ht : t = ROOT)
      by (rewrite analyze_module_eq in E; now injection E as <- _ _ _).
    cbn [all_nodes children] in *. constructor.
    + subst t. discriminate.
    + apply Forall_flat_map.
      eapply Forall_impl; [|exact Hc].
      intros c [Hk [_ Hg]].
      destruct c as [ct cn cl ccs]. cbn [all_nodes children decl_type] in *.
      constructor.
      * cbn [decl_type children]. intros Hm.
        destruct Hk as [Hk | Hk]; [exact Hk|]. subst ct. discriminate.
      * apply Forall_flat_map.
        eapply Forall_impl; [|exact Hg].
        intros g [Hl _]. rewrite (leaf_all_nodes g Hl).
        constructor; [auto|constructor].
  - apply height_step.
    eapply Forall_impl; [|exact Hc].
    intros c [_ [_ Hg]]. apply height_step.
    eapply Forall_impl; [|exact Hg].
    intros g [Hl _]. now rewrite (height_leaf g Hl).
Qed.

Lemma class_members_by_code (b : list stmt) :
  collect class_member b
  = flat_map
      (fun s =>
         match s with
         | Assign _ _ | AnnAssign _ _ =>
             match _analyze_class_var s with
             | Some d => [d]
             | None => []
             end
         | FunctionDef fn _ fds fl => [_analyze_function fn fds fl]
         | _ => []
         end) b.
Proof.
  unfold collect. apply flat_map_ext. intros s.
  destruct s; cbn [class_member]; try reflexivity.
  - now rewrite analyze_function_eq.
  - now rewrite analyze_class_var_assign.
Qed.

(** C8. The tree built for a module is the synthetic ROOT (name [root],
    rank 0, line 0) whose children are exactly, in source order, one node
    per top-level class definition, function definition and plain import;
    the children of a class node are exactly, in source order, the
    classified assignments, annotated assignments and function
    definitions of the class body; nothing else is populated.  A function
    node has no children and the tree is the same whatever the bodies of
    the functions, at top level and in class bodies: the builder never
    descends into them.  Hence a child of ROOT has children only if it is
    a CLASS_DECL, the children of a child of ROOT are childless fields or
    methods, every node of a method, field or import category is a leaf,
    and no path from the root is longer than two edges. *)
Theorem analyze_module_two_levels (m : Module) :
  _analyze_module m
  = mkDeclNode ROOT "root" 0
      (flat_map
         (fun s =>
            match s with
            | ClassDef n b _ l =>
                [mkDeclNode CLASS_DECL n l
                   (flat_map
                      (fun s' =>
                         match s' with
                         | Assign _ _ | AnnAssign _ _ =>
                             match _analyze_class_var s' with
                             | Some d => [d]
                             | None => []
                             end
                         | FunctionDef fn _ fds fl =>
                             [_analyze_function fn fds fl]
                         | _ => []
                         end) b)]
            | FunctionDef n _ ds l => [_analyze_function n ds l]
            | Import ns l => [_analyze_import ns l]
            | _ => []
            end) (body m))
  /\ (forall (n : string) (ds : list expr) (l : Z),
         children (_analyze_function n ds l) = [])
  /\ (forall (pre post : list stmt) (n : string) (b b' : list stmt)
             (ds : list expr) (l : Z),
         _analyze_module (mkModule (pre ++ FunctionDef n b ds l :: post))
         = _analyze_module (mkModule (pre ++ FunctionDef n b' ds l :: post)))
  /\ (forall (pre post : list stmt) (cn : string) (cds : list expr) (cl : Z)
             (cpre cpost : list stmt) (n : string) (b b' : list stmt)
             (ds : list expr) (l : Z),
         _analyze_module
           (mkModule
              (pre ++ ClassDef cn (cpre ++ FunctionDef n b ds l :: cpost)
                               cds cl :: post))
         = _analyze_module
             (mkModule
                (pre ++ ClassDef cn (cpre ++ FunctionDef n b' ds l :: cpost)
                                 cds cl :: post)))
  /\ decl_type (_analyze_module m) = ROOT
  /\ value (decl_type (_analyze_module m)) = 0
  /\ line (_analyze_module m) = 0
  /\ Forall (fun c =>
               (children c = [] \/ decl_type c = CLASS_DECL)
               /\ (decl_type c = IMPORT \/ decl_type c = CLASS_DECL
                   \/ is_method_type (decl_type c) = true)
               /\ Forall (fun g =>
                            children g = []
                            /\ (decl_type g = CLASS_VAR
                                \/ is_method_type (decl_type g) = true))
                         (children c))
            (children (_analyze_module m))
  /\ Forall (fun d => is_member_type (decl_type d) = true -> children d = [])
            (all_nodes (_analyze_module m))
  /\ (height (_analyze_module m) <= 2)%nat.
Proof.
  split; [|split; [|split; [|split]]].
  - rewrite analyze_module_eq. f_equal. unfold collect.
    apply flat_map_ext. intros s.
    destruct s; cbn [module_member]; try reflexivity.
    + now rewrite class_members_by_code.
    + now rewrite analyze_function_eq.
    + now rewrite analyze_import_eq.
  - intros. now rewrite analyze_function_eq.
  - intros. rewrite !analyze_module_eq. cbn [body]. f_equal.
    rewrite !collect_app. reflexivity.
  - intros. rewrite !analyze_module_eq. cbn [body]. f_equal.
    rewrite !collect_app. f_equal.
    change (collect module_member
              (ClassDef cn (cpre ++ FunctionDef n b ds l :: cpost) cds cl
                        :: post))
      with (mkDeclNode CLASS_DECL cn cl
              (collect class_member (cpre ++ FunctionDef n b ds l :: cpost))
              :: collect module_member post).
    change (collect module_member
              (ClassDef cn (cpre ++ FunctionDef n b' ds l :: cpost) cds cl
                        :: post))
      with (mkDeclNode CLASS_DECL cn cl
              (collect class_member (cpre ++ FunctionDef n b' ds l :: cpost))
              :: collect module_member post).
    rewrite !collect_app. reflexivity.
  - apply analyze_module_shape.
Qed.

(** C9. At module level a plain [import] statement contributes one
    childless IMPORT node on its line, named by the imported names joined
    with commas in clause order; a [from ... import ...] statement
    contributes nothing, the tree and the issues being those obtained
    without it; and the
    IMPORT nodes of the whole tree are as many as the plain [import]
    statements at the top level of the module. *)
Theorem only_plain_import_is_IMPORT :
  (forall (pre post : list stmt) (ns : list alias) (l : Z),
      children (_analyze_module (mkModule (pre ++ Import ns l :: post)))
      = children (_analyze_module (mkModule pre))
        ++ mkDeclNode IMPORT (String.concat "," (map alias_name ns)) l []
        :: children (_analyze_module (mkModule post)))
  /\ (forall (pre post : list stmt) (mo : option string) (ns : list alias)
             (lvl l : Z),
         _analyze_module (mkModule (pre ++ ImportFrom mo ns lvl l :: post))
         = _analyze_module (mkModule (pre ++ post))
         /\ check_order
              (_analyze_module (mkModule (pre ++ ImportFrom mo ns lvl l :: post)))
            = check_order (_analyze_module (mkModule (pre ++ post))))
  /\ (forall m : Module,
         List.length (filter is_IMPORT (all_nodes (_analyze_module m)))
         = List.length (filter is_Import_stmt (body m))).
Proof.
  split; [|split].
  - intros. rewrite analyze_module_children_app, analyze_module_children_cons.
    reflexivity.
  - intros.
    assert (E : _analyze_module
                  (mkModule (pre ++ ImportFrom mo ns lvl l :: post))
                = _analyze_module (mkModule (pre ++ post))).
    { rewrite !analyze_module_eq. cbn [body]. f_equal.
      rewrite !collect_app. reflexivity. }
    split; [exact E|now rewrite E].
  - intros m. rewrite analyze_module_eq.
    cbn [all_nodes children filter is_IMPORT decl_type].
    change (DeclType_eqb ROOT IMPORT) with false.
    apply module_members_IMPORT_count.
Qed.

(** * Further properties of the checker and the builder *)

(** ** Induction over declaration trees *)

(** Structural induction with the hypothesis available for every
    child. *)
Lemma DeclNode_tree_ind (P : DeclNode -> Prop) :
  (forall t n l cs, Forall P cs -> P (mkDeclNode t n l cs)) ->
  forall d, P d.
Proof.
  intros H.
  refine (fix IH (d : DeclNode) : P d :=
            match d with
            | mkDeclNode t n l cs =>
                H t n l cs
                  ((fix go (cs : list DeclNode) : Forall P cs :=
                      match cs with
                      | [] => Forall_nil P
                      | c :: cs' => Forall_cons c (IH c) (go cs')
                      end) cs)
            end).
Qed.

(** The adjacent sibling pairs of every node of a tree, the nodes taken
    root first. *)
Definition sibling_pairs (t : DeclNode) : list (DeclNode * DeclNode) :=
  flat_map (fun n => adjacent_pairs (children n)) (all_nodes t).

(** The later sibling of the pair has the smaller rank. *)
Definition descending (pc : DeclNode * DeclNode) : bool :=
  value (decl_type (snd pc)) <? value (decl_type (fst pc)).

Lemma flat_map_flat_map {A B C : Type} (f : B -> list C) (g : A -> list B)
      (l : list A) :
  flat_map f (flat_map g l) = flat_map (fun a => flat_map f (g a)) l.
Proof.
  induction l as [|a l IH]; [reflexivity|].
  cbn [flat_map]. now rewrite flat_map_app, IH.
Qed.

Lemma flat_map_ext_Forall {A B : Type} (f g : A -> list B) (l : list A) :
  Forall (fun a => f a = g a) l -> flat_map f l = flat_map g l.
Proof.
  induction 1 as [|a l Ha _ IH]; [reflexivity|].
  cbn [flat_map]. now rewrite Ha, IH.
Qed.

Lemma sibling_scan_eq (cs : list DeclNode) :
  sibling_scan cs = flat_map pair_issue (adjacent_pairs cs).
Proof.
  unfold sibling_scan. destruct cs as [|c cs]; [reflexivity|].
  cbn [fold_left scan_step]. now rewrite scan_fold_from.
Qed.

Lemma check_order_unfold (t : DeclNode) :
  check_order t
  = sibling_scan (children t) ++ flat_map check_order (children t).
Proof.
  destruct t as [ty n l cs]. cbn [check_order children].
  apply fold_left_extend.
Qed.

Lemma check_order_by_node (t : DeclNode) :
  check_order t
  = flat_map (fun n => sibling_scan (children n)) (all_nodes t).
Proof.
  induction t as [ty n l cs IH] using DeclNode_tree_ind.
  rewrite check_order_unfold. cbn [all_nodes children flat_map].
  f_equal. rewrite flat_map_flat_map.
  now apply flat_map_ext_Forall.
Qed.

Lemma check_order_pairs (t : DeclNode) :
  check_order t = flat_map pair_issue (sibling_pairs t).
Proof.
  rewrite check_order_by_node. unfold sibling_pairs.
  rewrite flat_map_flat_map. apply flat_map_ext.
  intros n. apply sibling_scan_eq.
Qed.

Lemma pair_issue_descending (pc : DeclNode * DeclNode) :
  pair_issue pc
  = if descending pc
    then [mkIssue (line (snd pc)) (order_msg (snd pc) (fst pc))]
    else [].
Proof. now destruct pc. Qed.

Lemma pair_issues_length (l : list (DeclNode * DeclNode)) :
  List.length (flat_map pair_issue l) = List.length (filter descending l).
Proof.
  induction l as [|pc l IH]; [reflexivity|].
  cbn [flat_map filter]. rewrite length_app, pair_issue_descending, IH.
  now destruct (descending pc).
Qed.

Lemma adjacent_pairs_length {A : Type} (l : list A) :
  List.length (adjacent_pairs l) = Nat.pred (List.length l).
Proof.
  induction l as [|a l IH]; [reflexivity|].
  destruct l as [|b l]; [reflexivity|].
  cbn [adjacent_pairs List.length Nat.pred] in *. now rewrite IH.
Qed.

Lemma sibling_scan_length (cs : list DeclNode) :
  (List.length (sibling_scan cs) <= Nat.pred (List.length cs))%nat.
Proof.
  rewrite sibling_scan_eq, pair_issues_length, <- adjacent_pairs_length.
  apply filter_length_le.
Qed.

Lemma all_nodes_nonempty (t : DeclNode) :
  (1 <= List.length (all_nodes t))%nat.
Proof. destruct t. cbn [all_nodes List.length]. lia. Qed.

Lemma check_order_size (t : DeclNode) :
  (List.length (check_order t) + 1 <= List.length (all_nodes t))%nat.
Proof.
  induction t as [ty n l cs IH] using DeclNode_tree_ind.
  rewrite check_order_unfold. cbn [all_nodes children List.length].
  rewrite length_app.
  pose proof (sibling_scan_length cs) as Hs.
  assert (Hc : (List.length (flat_map check_order cs) + List.length cs
                <= List.length (flat_map all_nodes cs))%nat).
  { clear Hs. induction IH as [|c cs Hc _ IHcs]; [reflexivity|].
    cbn [flat_map List.length]. rewrite !length_app. lia. }
  lia.
Qed.

Lemma adjacent_pairs_snoc {A : Type} (l : list A) (c : A) :
  adjacent_pairs (l ++ [c])
  = adjacent_pairs l
    ++ match l with
       | [] => []
       | _ :: _ => [(last l c, c)]
       end.
Proof.
  induction l as [|a l IH]; [reflexivity|].
  destruct l as [|b l]; [reflexivity|].
  change (adjacent_pairs ((a :: b :: l) ++ [c]))
    with ((a, b) :: adjacent_pairs ((b :: l) ++ [c])).
  rewrite IH. reflexivity.
Qed.

Lemma adjacent_pairs_In {A : Type} (l : list A) (p c : A) :
  In (p, c) (adjacent_pairs l) -> In p l /\ In c (tl l).
Proof.
  induction l as [|a l IH]; [intros []|].
  destruct l as [|b l]; [intros []|].
  cbn [adjacent_pairs tl]. intros [E | H].
  - injection E as <- <-. split; apply in_eq.
  - destruct (IH H) as [Hp Hc]. split; apply in_cons; assumption.
Qed.

Lemma adjacent_pairs_middle {A : Type} (pre post : list A) (p c : A) :
  In (p, c) (adjacent_pairs (pre ++ p :: c :: post)).
Proof.
  induction pre as [|a pre IH]; [apply in_eq|].
  cbn [app]. destruct pre as [|b pre]; apply in_cons; exact IH.
Qed.

(** ** The order checker, over whole trees *)

(** X1. The issues of a tree are the local sibling-scan issues of its
    nodes, concatenated with the nodes taken root first (each node before
    its descendants, siblings' subtrees left to right). *)
Theorem check_order_root_first (t : DeclNode) :
  check_order t
  = flat_map (fun n => sibling_scan (children n)) (all_nodes t).
Proof.
  rewrite check_order_pairs. unfold sibling_pairs.
  rewrite flat_map_flat_map. apply flat_map_ext.
  intros n. symmetry. apply sibling_scan_eq.
Qed.

(** X2. A tree is reported clean exactly when, at every node, the ranks
    of the children never decrease from one sibling to the next. *)
Theorem check_order_clean_iff_sorted (t : DeclNode) :
  check_order t = []
  <-> Forall (fun pc => value (decl_type (fst pc))
                        <= value (decl_type (snd pc)))
             (sibling_pairs t).
Proof.
  rewrite check_order_pairs.
  induction (sibling_pairs t) as [|pc l IH]; cbn [flat_map].
  - split; constructor.
  - rewrite pair_issue_descending. unfold descending.
    destruct (Z.ltb_spec (value (decl_type (snd pc)))
                         (value (decl_type (fst pc)))) as [Hlt | Hge].
    + split; [discriminate|].
      intros H. inversion H; subst. lia.
    + cbn [app]. rewrite IH. split.
      * intros H. now constructor.
      * intros H. now inversion H.
Qed.

(** X3. There are as many issues as adjacent sibling pairs of descending
    rank in the tree. *)
Theorem check_order_issue_count (t : DeclNode) :
  List.length (check_order t)
  = List.length (filter descending (sibling_pairs t)).
Proof. rewrite check_order_pairs. apply pair_issues_length. Qed.

(** X4. A tree yields fewer issues than it has nodes, and a node with
    at most one child yields no issue of its own. *)
Theorem check_order_fewer_issues_than_nodes (t : DeclNode) :
  (List.length (check_order t) < List.length (all_nodes t))%nat
  /\ (List.length (sibling_scan (children t))
      <= Nat.pred (List.length (children t)))%nat.
Proof.
  split.
  - pose proof (check_order_size t). lia.
  - apply sibling_scan_length.
Qed.

(** X5. An issue is reported exactly for the adjacent sibling pairs
    [(p, c)] of the tree with [rank c < rank p]; it carries the line of
    [c] and names [c] and [p]. *)
Theorem check_order_issue_iff (t : DeclNode) (i : Issue) :
  In i (check_order t)
  <-> exists p c,
      In (p, c) (sibling_pairs t)
      /\ value (decl_type c) < value (decl_type p)
      /\ i = mkIssue (line c) (order_msg c p).
Proof.
  rewrite check_order_pairs, in_flat_map. split.
  - intros [[p c] [Hin Hi]]. rewrite pair_issue_descending in Hi.
    unfold descending in Hi. cbn [fst snd] in Hi.
    destruct (Z.ltb_spec (value (decl_type c)) (value (decl_type p)))
      as [Hlt | Hge]; [|destruct Hi].
    destruct Hi as [<- | []]. now exists p, c.
  - intros [p [c [Hin [Hlt ->]]]]. exists (p, c). split; [exact Hin|].
    rewrite pair_issue_descending. unfold descending. cbn [fst snd].
    apply Z.ltb_lt in Hlt. rewrite Hlt. apply in_eq.
Qed.

(** X6. Appending a child with [add_child] keeps the node's local issues
    and adds at most one, for the new child against the former last
    child; the subtree issues are the former ones followed by the new
    child's own. *)
Theorem check_order_add_child (t c : DeclNode) :
  check_order (add_child t c)
  = (sibling_scan (children t)
       ++ match children t with
          | [] => []
          | _ :: _ => pair_issue (last (children t) c, c)
          end)
      ++ flat_map check_order (children t) ++ check_order c.
Proof.
  rewrite check_order_unfold. cbn [add_child children].
  rewrite !sibling_scan_eq, adjacent_pairs_snoc, !flat_map_app.
  cbn [flat_map]. rewrite app_nil_r.
  destruct (children t) as [|a l]; cbn [flat_map]; [reflexivity|].
  now rewrite app_nil_r.
Qed.

(** ** The builder, over whole statement sequences *)

(** [node.lineno]. *)
Definition stmt_lineno (s : stmt) : Z :=
  match s with
  | ClassDef _ _ _ l | FunctionDef _ _ _ l | AsyncFunctionDef _ _ _ l
  | Import _ l | ImportFrom _ _ _ l | Assign _ l | AnnAssign _ l
  | OtherStmt l => l
  end.

(** The statement classes [_analyze_module] has a branch for. *)
Definition is_module_decl (s : stmt) : bool :=
  match s with
  | ClassDef _ _ _ _ | FunctionDef _ _ _ _ | Import _ _ => true
  | _ => false
  end.

(** The statement classes [_analyze_class] has a branch for. *)
Definition is_class_decl (s : stmt) : bool :=
  match s with
  | Assign _ _ | FunctionDef _ _ _ _ | AnnAssign _ _ => true
  | _ => false
  end.

(** The lines of the statements a module declares: its recognised
    top-level statements, and the recognised statements of the bodies of
    its top-level classes. *)
Definition declared_lines (m : Module) : list Z :=
  map stmt_lineno (filter is_module_decl (body m))
  ++ flat_map (fun s =>
                 match s with
                 | ClassDef _ b _ _ => map stmt_lineno (filter is_class_decl b)
                 | _ => []
                 end) (body m).

(** What the builder never reads, removed: function bodies, decorators
    after the first, decorators of classes, the [as] names of imports and
    assignment targets after the first; unrecognised statements are
    kept. *)
Fixpoint erase_unread (s : stmt) : stmt :=
  match s with
  | ClassDef n b _ l => ClassDef n (map erase_unread b) [] l
  | FunctionDef n _ ds l => FunctionDef n [] (firstn 1 ds) l
  | Import ns l => Import (map (fun a => mkAlias (alias_name a) None) ns) l
  | Assign ts l => Assign (firstn 1 ts) l
  | _ => s
  end.

Lemma string_app_assoc (a b c : string) :
  ((a ++ b) ++ c)%string = (a ++ b ++ c)%string.
Proof. induction a as [|x a IH]; cbn; congruence. Qed.

Lemma collect_filter {A B : Type} (f : A -> option B) (q : A -> bool)
      (l : list A) :
  (forall a, q a = false -> f a = None) ->
  collect f (filter q l) = collect f l.
Proof.
  intros H. unfold collect.
  induction l as [|a l IH]; [reflexivity|].
  cbn [filter flat_map]. destruct (q a) eqn:E.
  - cbn [flat_map]. now rewrite IH.
  - now rewrite (H a E), IH.
Qed.

Lemma collect_map_ext {A B : Type} (f : A -> option B) (g : A -> A)
      (l : list A) :
  (forall a, f (g a) = f a) -> collect f (map g l) = collect f l.
Proof.
  intros H. unfold collect.
  induction l as [|a l IH]; [reflexivity|].
  cbn [map flat_map]. now rewrite H, IH.
Qed.

Lemma module_member_unrecognised (s : stmt) :
  is_module_decl s = false -> module_member s = None.
Proof. now destruct s. Qed.

Lemma class_member_unrecognised (s : stmt) :
  is_class_decl s = false -> class_member s = None.
Proof. now destruct s. Qed.

Lemma class_member_lines (b : list stmt) :
  map line (collect class_member b)
  = map stmt_lineno (filter is_class_decl b).
Proof.
  induction b as [|s b IH]; [reflexivity|].
  change (collect class_member (s :: b))
    with ((match class_member s with Some d => [d] | None => [] end)
            ++ collect class_member b).
  rewrite map_app, IH. now destruct s.
Qed.

Lemma module_member_lines (b : list stmt) :
  map line (collect module_member b)
  = map stmt_lineno (filter is_module_decl b).
Proof.
  induction b as [|s b IH]; [reflexivity|].
  change (collect module_member (s :: b))
    with ((match module_member s with Some d => [d] | None => [] end)
            ++ collect module_member b).
  rewrite map_app, IH. now destruct s.
Qed.

Lemma firstn_1_hd_error {A : Type} (l : list A) :
  hd_error (firstn 1 l) = hd_error l.
Proof. now destruct l. Qed.

Lemma class_member_erase (s : stmt) :
  class_member (erase_unread s) = class_member s.
Proof.
  destruct s; cbn [erase_unread class_member]; try reflexivity;
    now rewrite firstn_1_hd_error.
Qed.

Lemma module_member_erase (s : stmt) :
  module_member (erase_unread s) = module_member s.
Proof.
  destruct s; cbn [erase_unread module_member]; try reflexivity.
  - now rewrite (collect_map_ext class_member erase_unread cbody
                                 class_member_erase).
  - now rewrite firstn_1_hd_error.
  - now rewrite map_map.
Qed.

Lemma check_order_leaf (d : DeclNode) : children d = [] -> check_order d = [].
Proof. intros H. rewrite check_order_unfold, H. reflexivity. Qed.

Lemma flat_map_all_nil {A B : Type} (f : A -> list B) (l : list A) :
  Forall (fun a => f a = []) l -> flat_map f l = [].
Proof.
  induction 1 as [|a l Ha _ IH]; [reflexivity|].
  cbn [flat_map]. now rewrite Ha, IH.
Qed.

Lemma sibling_scan_lines (cs : list DeclNode) (i : Issue) :
  In i (sibling_scan cs) -> In (issue_line i) (map line cs).
Proof.
  rewrite sibling_scan_eq, in_flat_map.
  intros [[p c] [Hin Hi]]. rewrite pair_issue_descending in Hi.
  destruct (descending (p, c)); [|destruct Hi].
  destruct Hi as [<- | []]. cbn [issue_line snd].
  apply in_map. destruct (adjacent_pairs_In cs p c Hin) as [_ Hc].
  destruct cs; [destruct Hc|now apply in_cons].
Qed.

Lemma method_type_above_IMPORT (t : DeclType) :
  is_method_type t = true -> (value IMPORT <? value t) = true.
Proof. now destruct t. Qed.

(** Issues of a built module tree: those of the root, then those of each
    child of the root; deeper nodes are leaves. *)
Lemma analyze_module_issues (m : Module) :
  check_order (_analyze_module m)
  = sibling_scan (children (_analyze_module m))
    ++ flat_map (fun c => sibling_scan (children c))
                (children (_analyze_module m)).
Proof.
  rewrite check_order_unfold. f_equal.
  apply flat_map_ext_Forall.
  rewrite analyze_module_eq. cbn [children].
  apply Forall_collect. intros s d Hd.
  destruct (module_member_shape s d Hd) as [_ [_ Hg]].
  rewrite check_order_unfold.
  rewrite (flat_map_all_nil check_order (children d)).
  - apply app_nil_r.
  - eapply Forall_impl; [|exact Hg].
    intros g [Hl _]. now apply check_order_leaf.
Qed.

(** X7. The children of the module root are, in source order, one node
    per class definition, function definition and plain import of the
    module body, on that statement's line; the children of a class node
    are likewise one node per assignment, function definition and
    annotated assignment of the class body. *)
Theorem builder_keeps_source_order :
  (forall m : Module,
      map line (children (_analyze_module m))
      = map stmt_lineno (filter is_module_decl (body m)))
  /\ (forall (n : string) (b : list stmt) (l : Z),
         map line (children (_analyze_class n b l))
         = map stmt_lineno (filter is_class_decl b)).
Proof.
  split; intros.
  - rewrite analyze_module_eq. apply module_member_lines.
  - rewrite analyze_class_eq. apply class_member_lines.
Qed.

(** X8. Statements the builder has no branch for leave no trace: the
    tree of a module, and of a class, is the tree built from its
    recognised statements alone. *)
Theorem unrecognised_statements_leave_no_trace :
  (forall m : Module,
      _analyze_module (mkModule (filter is_module_decl (body m)))
      = _analyze_module m)
  /\ (forall (n : string) (b : list stmt) (l : Z),
         _analyze_class n (filter is_class_decl b) l = _analyze_class n b l).
Proof.
  split; intros.
  - rewrite !analyze_module_eq. cbn [body]. f_equal.
    apply collect_filter, module_member_unrecognised.
  - rewrite !analyze_class_eq. f_equal.
    apply collect_filter, class_member_unrecognised.
Qed.

(** X9. The tree, and so the issues, of a module do not depend on
    function bodies, on decorators after the first, on the decorators of
    classes, on the [as] names of imports, or on assignment targets after
    the first. *)
Theorem builder_ignores_unread_parts (m : Module) :
  _analyze_module (mkModule (map erase_unread (body m))) = _analyze_module m.
Proof.
  rewrite !analyze_module_eq. cbn [body]. f_equal.
  apply collect_map_ext, module_member_erase.
Qed.

(** X10. The issues of a module are the issues among its top-level
    declarations followed by, for each top-level declaration in order, the
    issues among its members; nothing deeper contributes. *)
Theorem module_issues_two_blocks (m : Module) :
  check_order (_analyze_module m)
  = sibling_scan (children (_analyze_module m))
    ++ flat_map (fun c => sibling_scan (children c))
                (children (_analyze_module m)).
Proof.
  rewrite check_order_by_node, analyze_module_eq.
  cbn [all_nodes children flat_map]. f_equal.
  rewrite flat_map_flat_map. apply flat_map_ext_Forall.
  apply Forall_collect. intros s d Hd.
  destruct (module_member_shape s d Hd) as [_ [_ Hg]].
  destruct d as [ty n l cs]. cbn [all_nodes children flat_map] in *.
  rewrite flat_map_flat_map, (flat_map_all_nil _ cs); [apply app_nil_r|].
  eapply Forall_impl; [|exact Hg].
  intros g [Hl _]. rewrite (leaf_all_nodes g Hl). cbn [flat_map].
  now rewrite Hl.
Qed.

(** X11. Every issue reported for a module is on the line of a statement
    the module declares: a recognised top-level statement or a recognised
    statement of the body of a top-level class. *)
Theorem module_issue_lines_are_declared (m : Module) :
  Forall (fun i => In (issue_line i) (declared_lines m))
         (check_order (_analyze_module m)).
Proof.
  rewrite analyze_module_issues, analyze_module_eq. cbn [children].
  unfold declared_lines. apply Forall_app. split; apply Forall_forall.
  - intros i Hi. apply in_or_app. left.
    rewrite <- module_member_lines. now apply sibling_scan_lines.
  - intros i Hi. apply in_or_app. right.
    apply in_flat_map in Hi. destruct Hi as [d [Hd Hi]].
    unfold collect in Hd. apply in_flat_map in Hd.
    destruct Hd as [s [Hs Hd]].
    apply in_flat_map. exists s. split; [exact Hs|].
    destruct s; cbn [module_member] in Hd; try (now destruct Hd);
      destruct Hd as [<- | []]; try (now destruct Hi).
    cbn [children] in Hi. rewrite <- class_member_lines.
    now apply sibling_scan_lines.
Qed.

(** X12. A plain import that directly follows a class or function
    definition at module level is always reported, on the import's line,
    against that definition. *)
Theorem import_after_definition_is_reported
        (pre post b : list stmt) (n : string) (ds : list expr) (l : Z)
        (ns : list alias) (li : Z) :
  In (mkIssue li
        (dquote ++ String.concat "," (map alias_name ns) ++ dquote
                ++ " should not be after " ++ dquote ++ n ++ dquote)%string)
     (check_order
        (_analyze_module
           (mkModule (pre ++ ClassDef n b ds l :: Import ns li :: post))))
  /\ In (mkIssue li
           (dquote ++ String.concat "," (map alias_name ns) ++ dquote
                   ++ " should not be after " ++ dquote ++ n ++ dquote)%string)
        (check_order
           (_analyze_module
              (mkModule (pre ++ FunctionDef n b ds l :: Import ns li :: post)))).
Proof.
  split; rewrite check_order_unfold; apply in_or_app; left;
    rewrite sibling_scan_eq, analyze_module_eq; cbn [children body];
    rewrite collect_app; apply in_flat_map.
  - exists (mkDeclNode CLASS_DECL n l (collect class_member b),
            new_DeclNode IMPORT (String.concat "," (map alias_name ns)) li).
    split; [apply adjacent_pairs_middle|apply in_eq].
  - exists (new_DeclNode (classify_function_spec (hd_error ds) n) n l,
            new_DeclNode IMPORT (String.concat "," (map alias_name ns)) li).
    split; [apply adjacent_pairs_middle|].
    unfold pair_issue. cbn [new_DeclNode decl_type].
    rewrite (method_type_above_IMPORT _ (classify_function_spec_method _ _)).
    apply in_eq.
Qed.

(** X13. Only a decorator makes a function a STATIC_METHOD or a
    GETTER_SETTER: the first decorator is the bare [staticmethod] in the
    first case, and the bare [property] or an attribute access named
    [setter] in the second; no name does. *)
Theorem decorator_categories_iff (n : string) (ds : list expr) (l : Z) :
  (decl_type (_analyze_function n ds l) = STATIC_METHOD
   <-> exists rest, ds = Name "staticmethod" :: rest)
  /\ (decl_type (_analyze_function n ds l) = GETTER_SETTER
      <-> exists rest,
         ds = Name "property" :: rest
         \/ exists v, ds = Attribute v "setter" :: rest).
Proof.
  rewrite analyze_function_eq. cbn [new_DeclNode decl_type].
  assert (Hn : classify_by_name n <> STATIC_METHOD
               /\ classify_by_name n <> GETTER_SETTER).
  { unfold classify_by_name.
    destruct (startswith n "__" && endswith n "__");
      [split; discriminate|].
    destruct (startswith n "_"); split; discriminate. }
  destruct Hn as [Hs Hg].
  destruct ds as [|d rest]; cbn [hd_error classify_function_spec].
  - split; (split; [intros H; now exfalso|]).
    + intros [r Hr]. discriminate.
    + intros [r [Hr | [v Hr]]]; discriminate.
  - destruct d; cbn [is_bare is_attr orb];
      try (split; (split; [intros H; now exfalso|]);
           [intros [r Hr]; discriminate
           |intros [r [Hr | [v Hr]]]; discriminate]).
    + destruct (String.eqb_spec id "staticmethod") as [-> | Hns].
      * split; split; try discriminate.
        -- intros _. now exists rest.
        -- reflexivity.
        -- intros [r [Hr | [v Hr]]]; discriminate.
      * destruct (String.eqb_spec id "property") as [-> | Hnp].
        -- split; split; try discriminate.
           ++ intros [r Hr]. discriminate.
           ++ intros _. exists rest. now left.
           ++ reflexivity.
        -- split; (split; [intros H; now exfalso|]).
           ++ intros [r Hr]. congruence.
           ++ intros [r [Hr | [v Hr]]]; congruence.
    + destruct (String.eqb_spec attr "setter") as [-> | Hns].
      * split; split; try discriminate.
        -- intros [r Hr]. discriminate.
        -- intros _. exists rest. right. now exists d.
        -- reflexivity.
      * split; (split; [intros H; now exfalso|]).
        -- intros [r Hr]. discriminate.
        -- intros [r [Hr | [v Hr]]]; congruence.
Qed.

Lemma dunder_both_ends (n : string) :
  startswith n "__" && endswith n "__" = true
  <-> n = "__" \/ n = "___" \/ exists mid, n = ("__" ++ mid ++ "__")%string.
Proof.
  rewrite andb_true_iff, startswith_spec, endswith_spec. split.
  - intros [[t Ht] [t' Ht']]. subst n.
    destruct t' as [|a t']; [left; exact Ht'|].
    cbn [append] in Ht'. injection Ht' as <- Ht'.
    destruct t' as [|b t'].
    + right; left. cbn [append] in Ht'. injection Ht' as ->. reflexivity.
    + right; right. cbn [append] in Ht'. injection Ht' as <- ->.
      now exists t'.
  - intros [-> | [-> | [mid ->]]].
    + split; [now exists EmptyString|now exists EmptyString].
    + split; [now exists "_"|now exists "_"].
    + split; [now exists (mid ++ "__")%string|].
      exists ("__" ++ mid)%string. reflexivity.
Qed.

(** X14. An undecorated function is a MAGIC_METHOD exactly when its name
    is [__], [___], or two underscores, any text, two underscores; the
    two short names count because the prefix and suffix tests may
    overlap. *)
Theorem undecorated_magic_iff (n : string) (l : Z) :
  decl_type (_analyze_function n [] l) = MAGIC_METHOD
  <-> n = "__" \/ n = "___" \/ exists mid, n = ("__" ++ mid ++ "__")%string.
Proof.
  rewrite <- dunder_both_ends, analyze_function_eq.
  cbn [new_DeclNode decl_type hd_error classify_function_spec].
  unfold classify_by_name.
  destruct (startswith n "__" && endswith n "__").
  - split; reflexivity.
  - destruct (startswith n "_"); split; discriminate.
Qed.

(** * The debug rendering of a tree *)

From Stdlib Require Import DecimalString.

(** The line-feed character, code point 10. *)
Definition newline : string := String (ascii_of_nat 10) EmptyString.

(** [str(z)] for a Python [int]: decimal digits, with a leading minus
    sign when negative. *)
Definition str_int (z : Z) : string := NilZero.string_of_int (Z.to_int z).

(** [s * n]: [n] copies of [s], none when [n <= 0]. *)
Definition str_mul (s : string) (n : Z) : string :=
  String.concat EmptyString (repeat s (Z.to_nat n)).

(** [DeclType.name.lower()]. *)
Definition name_lower (t : DeclType) : string :=
  match t with
  | ROOT => "root"
  | IMPORT => "import"
  | CLASS_DECL => "class_decl"
  | CLASS_VAR => "class_var"
  | MAGIC_METHOD => "magic_method"
  | STATIC_METHOD => "static_method"
  | GETTER_SETTER => "getter_setter"
  | PUBLIC_METHOD => "public_method"
  | PRIVATE_METHOD => "private_method"
  end.

(** The f-string of [pretty_print]: the node's own line of output. *)
Definition pretty_header (self : DeclNode) (indent : Z) : string :=
  (str_mul " " indent ++ str_int (line self) ++ " "
           ++ str_int (value (decl_type self)) ++ " "
           ++ name_lower (decl_type self) ++ " " ++ name self)%string.

(** [DeclNode.pretty_print]: [lines] starts with the node's own line, the
    loop appends each child's rendering at [indent + 4], and the result is
    the lines joined by line feeds. *)
Fixpoint pretty_print (self : DeclNode) (indent : Z) : string :=
  join newline
       (fold_left (fun lines child => lines ++ [pretty_print child (indent + 4)])
                  (children self)
                  [pretty_header self indent]).

(** The nodes of a tree, root first, each with its depth below [d]. *)
Fixpoint depth_nodes (t : DeclNode) (d : Z) : list (Z * DeclNode) :=
  (d, t) :: flat_map (fun c => depth_nodes c (d + 1)) (children t).

(** Every string of [l] preceded by [sep]. *)
Fixpoint sep_all (sep : string) (l : list string) : string :=
  match l with
  | [] => EmptyString
  | y :: l' => (sep ++ y ++ sep_all sep l')%string
  end.

Lemma string_app_nil_r (s : string) : (s ++ EmptyString)%string = s.
Proof. induction s as [|a s IH]; cbn; congruence. Qed.

Lemma concat_cons (sep x : string) (l : list string) :
  String.concat sep (x :: l) = (x ++ sep_all sep l)%string.
Proof.
  revert x. induction l as [|y l IH]; intros x.
  - cbn. now rewrite string_app_nil_r.
  - change (String.concat sep (x :: y :: l))
      with (x ++ sep ++ String.concat sep (y :: l))%string.
    now rewrite IH.
Qed.

Lemma sep_all_app (sep : string) (l1 l2 : list string) :
  sep_all sep (l1 ++ l2) = (sep_all sep l1 ++ sep_all sep l2)%string.
Proof.
  induction l1 as [|y l1 IH]; [reflexivity|].
  cbn [app sep_all]. now rewrite IH, !string_app_assoc.
Qed.

Lemma fold_left_snoc_map {A B : Type} (f : A -> B) (l : list A)
      (init : list B) :
  fold_left (fun acc a => acc ++ [f a]) l init = init ++ map f l.
Proof.
  revert init. induction l as [|a l IH]; intros init; cbn [fold_left map].
  - now rewrite app_nil_r.
  - rewrite IH. now rewrite <- app_assoc.
Qed.

Lemma pretty_print_unfold (t : DeclNode) (indent : Z) :
  pretty_print t indent
  = (pretty_header t indent
       ++ sep_all newline
            (map (fun c => pretty_print c (indent + 4)) (children t)))%string.
Proof.
  destruct t as [ty n l cs]. cbn [pretty_print children]. unfold join.
  rewrite (fold_left_snoc_map (fun c => pretty_print c (indent + 4))).
  cbn [app]. apply concat_cons.
Qed.

Lemma pretty_print_lines (t : DeclNode) :
  forall indent d : Z,
    pretty_print t (indent + 4 * d)
    = String.concat newline
        (map (fun dn => pretty_header (snd dn) (indent + 4 * fst dn))
             (depth_nodes t d)).
Proof.
  induction t as [ty n l cs IH] using DeclNode_tree_ind.
  intros indent d. rewrite pretty_print_unfold.
  cbn [depth_nodes children map fst snd]. rewrite concat_cons. f_equal.
  induction IH as [|c cs Hc _ IHcs]; [reflexivity|].
  cbn [map flat_map sep_all]. rewrite map_app, sep_all_app, <- IHcs.
  replace (indent + 4 * d + 4) with (indent + 4 * (d + 1)) by lia.
  rewrite Hc. destruct c as [cty cn cl ccs].
  cbn [depth_nodes map]. rewrite concat_cons.
  cbn [sep_all]. now rewrite !string_app_assoc.
Qed.

Lemma depth_nodes_all_nodes (t : DeclNode) :
  forall d, map snd (depth_nodes t d) = all_nodes t.
Proof.
  induction t as [ty n l cs IH] using DeclNode_tree_ind.
  intros d. cbn [depth_nodes all_nodes children map snd]. f_equal.
  induction IH as [|c cs Hc _ IHcs]; [reflexivity|].
  cbn [flat_map]. now rewrite map_app, Hc, IHcs.
Qed.

(** X15. [pretty_print] writes one line per node of the tree, root
    first, separated by line feeds; the line of a node at depth [d] is its
    header indented by [indent + 4 * d] spaces. *)
Theorem pretty_print_one_line_per_node (t : DeclNode) (indent : Z) :
  pretty_print t indent
  = String.concat newline
      (map (fun dn => pretty_header (snd dn) (indent + 4 * fst dn))
           (depth_nodes t 0))
  /\ map snd (depth_nodes t 0) = all_nodes t.
Proof.
  split; [|apply depth_nodes_all_nodes].
  rewrite <- pretty_print_lines. f_equal. lia.
Qed.

(** * Reporting: the log calls and the batch loop *)

(** The levels of [logging]. *)
Inductive level : Type := DEBUG | INFO | WARNING | ERROR | CRITICAL.

(** One call to [logging.debug], [logging.info] or [logging.error]: the
    level and the message after [%]-formatting.  Which records reach the
    terminal, and in which colours, is decided by the [logging] library
    from the logger's level and the formatter, and is not modelled. *)
Definition log_record : Type := (level * string)%type.

Definition is_INFO (r : log_record) : bool :=
  match fst r with
  | INFO => true
  | _ => false
  end.

(** [str.rstrip(c)] for a one-character argument: the trailing run of
    [c] removed. *)
Fixpoint rstrip_char (c : ascii) (s : string) : string :=
  match s with
  | EmptyString => EmptyString
  | String a s' =>
      match rstrip_char c s' with
      | EmptyString => if Ascii.eqb a c then EmptyString
                       else String a EmptyString
      | String b r => String a (String b r)
      end
  end.

(** [handle_issues]: nothing for an empty list; otherwise the header at
    level ERROR, then the loop logging one INFO record per issue. *)
Definition handle_issues (file : string) (issues : list Issue)
  : list log_record :=
  if Nat.eqb (List.length issues) 0 then []
  else
    fold_left
      (fun log issue =>
         log ++ [(INFO,
                  ("    " ++ file ++ ":" ++ str_int (issue_line issue)
                          ++ " " ++ issue_msg issue)%string)])
      issues
      [(ERROR, ("Found issues in " ++ file ++ ":")%string)].

Section Batch.

Variable read_text : string -> outcome string.
Variable ast_parse : string -> outcome Module.

(** [os.path.isfile] and [glob.glob(pattern, recursive=True)]. *)
Variable isfile : string -> bool.
Variable glob : string -> list string.

(** The log calls of [Analyzer._analyze_file], whose returned value is
    [_analyze_file]: an ERROR record when [ast.parse] raises, two DEBUG
    records (a caption and the rendering of the tree) when it succeeds,
    none when reading the file raises. *)
Definition _analyze_file_log (path : string) : list log_record :=
  match read_text path with
  | Raised _ => []
  | Returned text =>
      match ast_parse text with
      | Raised ex =>
          [(ERROR, ("failed to parse " ++ path ++ ": " ++ ex)%string)]
      | Returned module =>
          [(DEBUG, "Declaration tree (LINE | NAME):");
           (DEBUG, pretty_print (_analyze_module module) 0)]
      end
  end.

(** The [for path in files:] loop of [main]: the records logged, and the
    exception that ended the loop, if any.  An exception of
    [Analyzer.process] is not caught and ends the loop. *)
Fixpoint main_loop (files : list string) : list log_record * option string :=
  match files with
  | [] => ([], None)
  | path :: rest =>
      match process read_text ast_parse path with
      | Raised ex => (_analyze_file_log path, Some ex)
      | Returned issues =>
          let '(log, r) := main_loop rest in
          (_analyze_file_log path ++ handle_issues path issues ++ log, r)
      end
  end.

(** The files [main] analyses for the [path] argument. *)
Definition discover (path : string) : list string :=
  if isfile path then [path]
  else glob (rstrip_char "/" path ++ "/**/*.py")%string.

(** [main], after the logger is set up and the arguments are parsed. *)
Definition main (path : string) : list log_record * option string :=
  main_loop (discover path).

(** The issues [process] returns for a file, none if it raises. *)
Definition issues_of (path : string) : list Issue :=
  match process read_text ast_parse path with
  | Returned issues => issues
  | Raised _ => []
  end.

(** The file can be opened and decoded. *)
Definition readable (path : string) : bool :=
  match read_text path with
  | Returned _ => true
  | Raised _ => false
  end.

End Batch.

(** A file system with a well-formed file [a.py] and a malformed file
    [b.py], and a parser for the two texts. *)
Definition demo_text : string :=
  ("def f(): pass" ++ newline ++ "import os")%string.

Definition demo_read (path : string) : outcome string :=
  if String.eqb path "a.py" then Returned demo_text
  else if String.eqb path "b.py" then Returned "class Dog(:"
       else Raised "FileNotFoundError".

Definition demo_parse (text : string) : outcome Module :=
  if String.eqb text demo_text
  then Returned (mkModule [FunctionDef "f" [OtherStmt 1] [] 1;
                           Import [mkAlias "os" None] 2])
  else Raised "invalid syntax".

Lemma handle_issues_eq (file : string) (issues : list Issue) :
  handle_issues file issues
  = match issues with
    | [] => []
    | _ :: _ =>
        (ERROR, ("Found issues in " ++ file ++ ":")%string)
          :: map (fun issue =>
                    (INFO,
                     ("    " ++ file ++ ":" ++ str_int (issue_line issue)
                             ++ " " ++ issue_msg issue)%string))
                 issues
    end.
Proof.
  unfold handle_issues. destruct issues as [|i issues]; [reflexivity|].
  cbn [List.length Nat.eqb].
  now rewrite (fold_left_snoc_map
                 (fun issue =>
                    (INFO,
                     ("    " ++ file ++ ":" ++ str_int (issue_line issue)
                             ++ " " ++ issue_msg issue)%string))).
Qed.

Lemma handle_issues_INFO_count (file : string) (issues : list Issue) :
  List.length (filter is_INFO (handle_issues file issues))
  = List.length issues.
Proof.
  rewrite handle_issues_eq. destruct issues as [|i issues]; [reflexivity|].
  cbn [filter is_INFO fst].
  generalize (i :: issues). intros l.
  induction l as [|j l IH]; [reflexivity|].
  cbn [map filter is_INFO fst List.length]. now rewrite IH.
Qed.

Lemma analyze_file_log_no_INFO
      (read_text : string -> outcome string)
      (ast_parse : string -> outcome Module) (path : string) :
  filter is_INFO (_analyze_file_log read_text ast_parse path) = [].
Proof.
  unfold _analyze_file_log.
  destruct (read_text path) as [text|ex]; [|reflexivity].
  now destruct (ast_parse text).
Qed.

Lemma process_readable
      (read_text : string -> outcome string)
      (ast_parse : string -> outcome Module) (path : string) :
  readable read_text path = true ->
  process read_text ast_parse path
  = Returned (issues_of read_text ast_parse path).
Proof.
  unfold readable, issues_of, process, _analyze_file.
  destruct (read_text path) as [text|ex]; [|discriminate].
  intros _. now destruct (ast_parse text).
Qed.

Lemma main_loop_readable
      (read_text : string -> outcome string)
      (ast_parse : string -> outcome Module) (files : list string) :
  forallb (readable read_text) files = true ->
  main_loop read_text ast_parse files
  = (flat_map (fun p =>
                 _analyze_file_log read_text ast_parse p
                   ++ handle_issues p (issues_of read_text ast_parse p))
              files,
     None).
Proof.
  induction files as [|p files IH]; [reflexivity|].
  cbn [forallb]. rewrite andb_true_iff. intros [Hp Hfiles].
  cbn [main_loop flat_map].
  rewrite (process_readable _ _ _ Hp), (IH Hfiles).
  now rewrite <- app_assoc.
Qed.

Lemma main_loop_app
      (read_text : string -> outcome string)
      (ast_parse : string -> outcome Module) (pre post : list string) :
  forallb (readable read_text) pre = true ->
  main_loop read_text ast_parse (pre ++ post)
  = (fst (main_loop read_text ast_parse pre)
       ++ fst (main_loop read_text ast_parse post),
     snd (main_loop read_text ast_parse post)).
Proof.
  induction pre as [|p pre IH].
  - intros _. cbn [app main_loop fst]. now destruct (main_loop _ _ post).
  - cbn [forallb]. rewrite andb_true_iff. intros [Hp Hpre].
    cbn [app main_loop].
    rewrite (process_readable _ _ _ Hp), (IH Hpre).
    destruct (main_loop read_text ast_parse pre) as [lg r].
    cbn [fst snd]. now rewrite <- !app_assoc.
Qed.

Lemma rstrip_char_snoc (c : ascii) (s : string) :
  rstrip_char c (s ++ String c EmptyString) = rstrip_char c s.
Proof.
  induction s as [|a s IH].
  - cbn. now rewrite Ascii.eqb_refl.
  - cbn [append rstrip_char]. now rewrite IH.
Qed.

(** X16. When every file of the batch can be read, the loop of [main]
    runs to the end without an exception, whether or not the files parse,
    and logs exactly one INFO record per issue found. *)
Theorem main_loop_completes_when_readable
        (read_text : string -> outcome string)
        (ast_parse : string -> outcome Module) (files : list string) :
  forallb (readable read_text) files = true ->
  snd (main_loop read_text ast_parse files) = None
  /\ List.length (filter is_INFO (fst (main_loop read_text ast_parse files)))
     = List.length (flat_map (issues_of read_text ast_parse) files).
Proof.
  intros H. rewrite (main_loop_readable _ _ _ H). cbn [fst snd].
  split; [reflexivity|]. clear H.
  induction files as [|p files IH]; [reflexivity|].
  cbn [flat_map]. rewrite !filter_app, !length_app, IH.
  now rewrite analyze_file_log_no_INFO, handle_issues_INFO_count.
Qed.

Lemma main_loop_completes_when_readable_witness :
  forallb (readable demo_read) ["a.py"; "b.py"] = true
  /\ snd (main_loop demo_read demo_parse ["a.py"; "b.py"]) = None
  /\ List.length
       (filter is_INFO (fst (main_loop demo_read demo_parse ["a.py"; "b.py"])))
     = List.length (flat_map (issues_of demo_read demo_parse) ["a.py"; "b.py"]).
Proof.
  split; [reflexivity|].
  apply (main_loop_completes_when_readable demo_read demo_parse
           ["a.py"; "b.py"]).
  reflexivity.
Defined.

(** X17. A file that cannot be read ends the batch: the exception leaves
    the loop, the files before it have been reported and the files after
    it are never analysed. *)
Theorem main_loop_stops_at_unreadable
        (read_text : string -> outcome string)
        (ast_parse : string -> outcome Module)
        (pre post : list string) (bad ex : string) :
  forallb (readable read_text) pre = true ->
  read_text bad = Raised ex ->
  main_loop read_text ast_parse (pre ++ bad :: post)
  = (fst (main_loop read_text ast_parse pre), Some ex).
Proof.
  intros Hpre Hbad. rewrite (main_loop_app _ _ _ _ Hpre).
  cbn [main_loop]. unfold process, _analyze_file, _analyze_file_log.
  rewrite Hbad. cbn [fst snd]. now rewrite app_nil_r.
Qed.

Lemma main_loop_stops_at_unreadable_witness :
  forallb (readable demo_read) ["a.py"] = true
  /\ demo_read "missing.py" = Raised "FileNotFoundError"
  /\ main_loop demo_read demo_parse (["a.py"] ++ "missing.py" :: ["b.py"])
     = (fst (main_loop demo_read demo_parse ["a.py"]),
        Some "FileNotFoundError").
Proof.
  split; [reflexivity|]. split; [reflexivity|].
  apply (main_loop_stops_at_unreadable demo_read demo_parse
           ["a.py"] ["b.py"] "missing.py" "FileNotFoundError");
    reflexivity.
Defined.

(** X18. A file that is read but does not parse never ends the batch: it
    adds one ERROR record naming the file and the parser's message, no
    issue report, and the loop goes on with the remaining files. *)
Theorem unparsable_file_does_not_stop_batch
        (read_text : string -> outcome string)
        (ast_parse : string -> outcome Module)
        (pre post : list string) (path text ex : string) :
  forallb (readable read_text) pre = true ->
  read_text path = Returned text ->
  ast_parse text = Raised ex ->
  main_loop read_text ast_parse (pre ++ path :: post)
  = (fst (main_loop read_text ast_parse pre)
       ++ (ERROR, ("failed to parse " ++ path ++ ": " ++ ex)%string)
       :: fst (main_loop read_text ast_parse post),
     snd (main_loop read_text ast_parse post)).
Proof.
  intros Hpre Hr Hp. rewrite (main_loop_app _ _ _ _ Hpre).
  cbn [main_loop]. unfold process, _analyze_file, _analyze_file_log.
  rewrite Hr, Hp.
  destruct (main_loop read_text ast_parse post) as [lg r].
  reflexivity.
Qed.

Lemma unparsable_file_does_not_stop_batch_witness :
  forallb (readable demo_read) ["a.py"] = true
  /\ demo_read "b.py" = Returned "class Dog(:"
  /\ demo_parse "class Dog(:" = Raised "invalid syntax"
  /\ main_loop demo_read demo_parse (["a.py"] ++ "b.py" :: ["a.py"])
     = (fst (main_loop demo_read demo_parse ["a.py"])
          ++ (ERROR, ("failed to parse " ++ "b.py" ++ ": "
                                         ++ "invalid syntax")%string)
          :: fst (main_loop demo_read demo_parse ["a.py"]),
        snd (main_loop demo_read demo_parse ["a.py"])).
Proof.
  split; [reflexivity|]. split; [reflexivity|]. split; [reflexivity|].
  apply (unparsable_file_does_not_stop_batch demo_read demo_parse
           ["a.py"] ["a.py"] "b.py" "class Dog(:" "invalid syntax");
    reflexivity.
Defined.

(** X19. [rstrip] of the path argument removes trailing slashes and
    nothing else: the argument is the result followed by slashes only, and
    the result does not end with a slash. *)
Theorem rstrip_char_spec (c : ascii) (s : string) :
  (exists t,
      s = (rstrip_char c s ++ t)%string
      /\ forallb (Ascii.eqb c) (list_ascii_of_string t) = true)
  /\ endswith (rstrip_char c s) (String c EmptyString) = false.
Proof.
  split.
  - induction s as [|a s [t [Hs Ht]]].
    + now exists EmptyString.
    + cbn [rstrip_char]. destruct (rstrip_char c s) as [|b r].
      * destruct (Ascii.eqb_spec a c) as [-> | Hac].
        -- exists (String c t). cbn [append] in *. split; [now rewrite <- Hs|].
           cbn [list_ascii_of_string forallb]. now rewrite Ascii.eqb_refl.
        -- exists t. cbn [append] in *. split; [now rewrite <- Hs|exact Ht].
      * exists t. cbn [append] in *. split; [now rewrite <- Hs|exact Ht].
  - apply not_true_is_false. rewrite endswith_spec.
    induction s as [|a s IH]; intros [t Ht].
    + cbn [rstrip_char] in Ht. now destruct t.
    + cbn [rstrip_char] in Ht. destruct (rstrip_char c s) as [|b r].
      * destruct (Ascii.eqb_spec a c) as [-> | Hac]; [now destruct t|].
        destruct t as [|x t]; cbn [append] in Ht.
        -- congruence.
        -- injection Ht as _ Ht. now destruct t.
      * destruct t as [|x t]; cbn [append] in Ht; [discriminate|].
        injection Ht as _ Ht. apply IH. now exists t.
Qed.

(** X20. For a directory argument, a trailing slash makes no difference
    to the files [main] analyses. *)
Theorem discover_ignores_trailing_slash
        (isfile : string -> bool) (glob : string -> list string)
        (path : string) :
  isfile path = false ->
  isfile (path ++ "/")%string = false ->
  discover isfile glob (path ++ "/")%string = discover isfile glob path.
Proof.
  intros H1 H2. unfold discover. rewrite H1, H2.
  now rewrite rstrip_char_snoc.
Qed.

Lemma discover_ignores_trailing_slash_witness :
  (fun _ : string => false) "src" = false
  /\ (fun _ : string => false) ("src" ++ "/")%string = false
  /\ discover (fun _ => false) (fun pattern => [pattern]) ("src" ++ "/")%string
     = discover (fun _ => false) (fun pattern => [pattern]) "src".
Proof.
  split; [reflexivity|]. split; [reflexivity|].
  apply (discover_ignores_trailing_slash
           (fun _ => false) (fun pattern => [pattern]) "src");
    reflexivity.
Defined.



